(** * culture-connect: the market-price refresh task and its read endpoint

    A shallow embedding of [agriculture_app_setup.js]: the scheduled task
    [updateMarketPrices] (server/tasks/updateMarketPrices.js), the helpers
    [getPricesFromAPI], [savePricesToDB] and [getCachedPrices]
    (server/utils/market.js), the Express handler of [GET /api/market] and
    the [cron.schedule] registration of the task (server/server.js).

    The program is glue around three outside services: an HTTP API reached
    through axios, a Firestore document and the console.  The embedding
    keeps the code in the shape of the source, as a small program monad
    over the operations the source performs, and gives it two semantics:
    a run to completion of one call against a scripted environment, and an
    event loop in which calls started by cron ticks are suspended at their
    [await]s and resumed in any order. *)

From Stdlib Require Import ZArith QArith String Ascii List Lia.
From stdpp Require Import gmap strings list fin_maps pretty.

(** ** JavaScript values *)

(** The JSON-shaped values that flow through the program: what
    [response.data] may be, the fields of a Firestore document, the
    arguments of [console.log].  Objects are finite maps from property
    names to values: Firestore documents and JSON bodies do not depend on
    the order of properties.  Strings are sequences of 8-bit code units,
    and numbers are kept as rationals: the program stores and returns
    them and never computes with them. *)
#[warnings="-register-all"]
Inductive value : Type :=
| VUndefined
| VNull
| VBool (b : bool)
| VNum (q : Q)
| VStr (s : string)
| VArr (l : list value)
| VObj (o : gmap string value).

(** A Firestore document body, and the argument of [set]: a plain object. *)
Abbreviation fields := (gmap string value).

(** ** [Date.prototype.toISOString] *)

(** A [Date] is its time value, milliseconds since the epoch, UTC.  The
    definitions follow ECMAScript's (Day, DayFromYear, YearFromTime,
    InLeapYear, MonthFromTime, DateFromTime, HourFromTime, ...), stated on
    day numbers where the standard multiplies by msPerDay. *)
Module Date.
Local Open Scope Z_scope.

Definition msPerDay : Z := 86400000.

Definition Day (t : Z) : Z := t / msPerDay.

Definition DayFromYear (y : Z) : Z :=
  365 * (y - 1970) + (y - 1969) / 4 - (y - 1901) / 100 + (y - 1601) / 400.

(** The largest [y] with [DayFromYear y <= d]: an estimate from the mean
    length of a year, corrected by at most one. *)
Definition YearFromDay (d : Z) : Z :=
  let y := 1970 + (d * 400) / 146097 in
  if DayFromYear (y + 1) <=? d then y + 1
  else if d <? DayFromYear y then y - 1
  else y.

Definition YearFromTime (t : Z) : Z := YearFromDay (Day t).

Definition DaysInYear (y : Z) : Z :=
  if negb (y mod 4 =? 0) then 365
  else if negb (y mod 100 =? 0) then 366
  else if negb (y mod 400 =? 0) then 365
  else 366.

Definition InLeapYear (t : Z) : Z :=
  if DaysInYear (YearFromTime t) =? 366 then 1 else 0.

Definition DayWithinYear (t : Z) : Z := Day t - DayFromYear (YearFromTime t).

(** Month number, 0 for January to 11 for December. *)
Definition MonthFromTime (t : Z) : Z :=
  let d := DayWithinYear t in
  let l := InLeapYear t in
  if d <? 31 then 0
  else if d <? 59 + l then 1
  else if d <? 90 + l then 2
  else if d <? 120 + l then 3
  else if d <? 151 + l then 4
  else if d <? 181 + l then 5
  else if d <? 212 + l then 6
  else if d <? 243 + l then 7
  else if d <? 273 + l then 8
  else if d <? 304 + l then 9
  else if d <? 334 + l then 10
  else 11.

(** Day of the month, 1 to 31. *)
Definition DateFromTime (t : Z) : Z :=
  let d := DayWithinYear t in
  let l := InLeapYear t in
  match MonthFromTime t with
  | 0 => d + 1
  | 1 => d - 30
  | 2 => d - 58 - l
  | 3 => d - 89 - l
  | 4 => d - 119 - l
  | 5 => d - 150 - l
  | 6 => d - 180 - l
  | 7 => d - 211 - l
  | 8 => d - 242 - l
  | 9 => d - 272 - l
  | 10 => d - 303 - l
  | _ => d - 333 - l
  end.

Definition HourFromTime (t : Z) : Z := (t / 3600000) mod 24.
Definition MinFromTime (t : Z) : Z := (t / 60000) mod 60.
Definition SecFromTime (t : Z) : Z := (t / 1000) mod 60.
Definition msFromTime (t : Z) : Z := t mod 1000.

Definition digit (n : Z) : ascii := ascii_of_nat (48 + Z.to_nat (n mod 10)).

(** [n] in decimal on exactly [w] digits, zero-padded. *)
Fixpoint digits (w : nat) (n : Z) : string :=
  match w with
  | O => EmptyString
  | S w' => digits w' (n / 10) +:+ String (digit n) EmptyString
  end.

(** Years 0 to 9999 are written on four digits, the others in the
    expanded form with a sign and six digits. *)
Definition year_string (y : Z) : string :=
  if (0 <=? y) && (y <=? 9999) then digits 4 y
  else (if y <? 0 then "-" else "+") +:+ digits 6 (Z.abs y).

(** YYYY-MM-DDTHH:mm:ss.sssZ *)
Definition toISOString (t : Z) : string :=
  year_string (YearFromTime t) +:+ "-" +:+ digits 2 (MonthFromTime t + 1)
    +:+ "-" +:+ digits 2 (DateFromTime t)
    +:+ "T" +:+ digits 2 (HourFromTime t)
    +:+ ":" +:+ digits 2 (MinFromTime t)
    +:+ ":" +:+ digits 2 (SecFromTime t)
    +:+ "." +:+ digits 3 (msFromTime t) +:+ "Z".

(** The times whose year is written on four digits: from
    0000-01-01T00:00:00.000Z to 9999-12-31T23:59:59.999Z. *)
Definition four_digit_year (t : Z) : Prop :=
  -62167219200000 <= t <= 253402300799999.

(** Lexicographic combination of comparisons. *)
Definition lex (c1 c2 : comparison) : comparison :=
  match c1 with
  | Eq => c2
  | _ => c1
  end.
End Date.

(** ** Object spread *)

(** The own enumerable properties that [{...v}] copies: the properties of
    an object, the elements of an array and the code units of a string
    under their decimal indices, and nothing for [undefined], [null],
    booleans and numbers. *)
Definition indexed (l : list value) : fields :=
  list_to_map (imap (fun i v => (pretty i, v)) l).

Fixpoint code_units (s : string) : list value :=
  match s with
  | EmptyString => []
  | String c s' => VStr (String c EmptyString) :: code_units s'
  end.

Definition spread (v : value) : fields :=
  match v with
  | VObj o => o
  | VArr l => indexed l
  | VStr s => indexed (code_units s)
  | _ => ∅
  end.

(** ** Programs *)

(** How a promise ends. *)
Inductive Settled (X : Type) : Type :=
| Fulfilled (x : X)
| Rejected (reason : value).
Arguments Fulfilled {X} x.
Arguments Rejected {X} reason.

(** The part of an axios response the source reads. *)
Record AxiosResponse : Type := { data : value }.

(** The calls that return a promise the source awaits: [axios.get(url)],
    [db.collection(c).doc(d).set(f)] and [db.collection(c).doc(d).get()].
    A document snapshot is modelled by what its [data()] sees: the fields
    of the document, or nothing when the document does not exist. *)
Inductive AsyncOp : Type -> Type :=
| AxiosGet (url : string) : AsyncOp AxiosResponse
| DocSet (collection doc : string) (f : fields) : AsyncOp unit
| DocGet (collection doc : string) : AsyncOp (option fields).

(** The calls that complete at once: [new Date()], [console.log],
    [console.error] and [res.json]. *)
Inductive SyncOp : Type -> Type :=
| NewDate : SyncOp Z
| ConsoleLog (args : list value) : SyncOp unit
| ConsoleError (args : list value) : SyncOp unit
| ResJson (body : value) : SyncOp unit.

(** The body of an async function: it returns, throws, performs a
    synchronous call and goes on, or awaits a promise and goes on with the
    way the promise settled. *)
Inductive Prog (A : Type) : Type :=
| Ret (a : A)
| Throw (e : value)
| Sync {X : Type} (op : SyncOp X) (k : X -> Prog A)
| Await {X : Type} (op : AsyncOp X) (k : Settled X -> Prog A).
Arguments Ret {A} a.
Arguments Throw {A} e.
Arguments Sync {A X} op k.
Arguments Await {A X} op k.

Fixpoint bind {A B : Type} (p : Prog A) (f : A -> Prog B) : Prog B :=
  match p with
  | Ret a => f a
  | Throw e => Throw e
  | Sync op k => Sync op (fun x => bind (k x) f)
  | Await op k => Await op (fun r => bind (k r) f)
  end.

Notation "x <- p ;; q" := (bind p (fun x => q))
  (at level 100, p at next level, right associativity).
Notation "p ;; q" := (bind p (fun _ => q))
  (at level 100, right associativity).

(** [try { p } catch (err) { h err }] *)
Fixpoint try_catch {A : Type} (p : Prog A) (h : value -> Prog A) : Prog A :=
  match p with
  | Ret a => Ret a
  | Throw e => h e
  | Sync op k => Sync op (fun x => try_catch (k x) h)
  | Await op k => Await op (fun r => try_catch (k r) h)
  end.

(** [await promise]: the value of a fulfilled promise; a rejected one
    throws its reason at the [await]. *)
Definition await {X : Type} (op : AsyncOp X) : Prog X :=
  Await op (fun r => match r with
                     | Fulfilled x => Ret x
                     | Rejected e => Throw e
                     end).

Definition new_Date : Prog Z := Sync NewDate Ret.
Definition console_log (args : list value) : Prog unit := Sync (ConsoleLog args) Ret.
Definition console_error (args : list value) : Prog unit := Sync (ConsoleError args) Ret.
Definition res_json (body : value) : Prog unit := Sync (ResJson body) Ret.

(** ** server/utils/market.js *)

Definition getPricesFromAPI : Prog value :=
  let url := "https://api.example.com/agriculture/market-prices" in
  response <- await (AxiosGet url) ;;
  Ret (data response).

Definition savePricesToDB (d : value) : Prog value :=
  now <- new_Date ;;
  await (DocSet "market" "prices"
           (<["updatedAt" := VStr (Date.toISOString now)]> (spread d))) ;;
  Ret VUndefined.

(** [doc.data()] *)
Definition snapshot_data (doc : option fields) : value :=
  match doc with
  | Some f => VObj f
  | None => VUndefined
  end.

Definition getCachedPrices : Prog value :=
  doc <- await (DocGet "market" "prices") ;;
  Ret (snapshot_data doc).

(** ** server/tasks/updateMarketPrices.js *)

Definition updateMarketPrices : Prog value :=
  try_catch
    (prices <- getPricesFromAPI ;;
     savePricesToDB prices ;;
     console_log [VStr "✅ Market prices updated"])
    (fun err => console_error [VStr "❌ Failed to update prices"; err]) ;;
  Ret VUndefined.

(** ** server/server.js *)

(** The handler of [app.get("/api/market", ...)]. *)
Definition market_handler : Prog value :=
  d <- getCachedPrices ;;
  res_json d ;;
  Ret VUndefined.

(** ** The outside world *)

Inductive Stream : Type := Stdout | Stderr.

(** A call that returned a promise, as an entry of the trace of calls. *)
Inductive Call : Type :=
| Called {X : Type} (op : AsyncOp X).

Record World : Type := {
  now : Z;                                   (* the wall clock, in ms *)
  firestore : gmap (string * string) fields; (* collection, document *)
  console : list (Stream * list value);      (* lines written, oldest first *)
  calls : list Call;                         (* promises started, oldest first *)
  responses : list value                     (* bodies given to res.json *)
}.

Definition set_now (t : Z) (w : World) : World :=
  {| now := t; firestore := firestore w; console := console w;
     calls := calls w; responses := responses w |}.
Definition set_firestore (m : gmap (string * string) fields) (w : World) : World :=
  {| now := now w; firestore := m; console := console w;
     calls := calls w; responses := responses w |}.
Definition set_console (c : list (Stream * list value)) (w : World) : World :=
  {| now := now w; firestore := firestore w; console := c;
     calls := calls w; responses := responses w |}.
Definition set_calls (c : list Call) (w : World) : World :=
  {| now := now w; firestore := firestore w; console := console w;
     calls := c; responses := responses w |}.
Definition set_responses (r : list value) (w : World) : World :=
  {| now := now w; firestore := firestore w; console := console w;
     calls := calls w; responses := r |}.

(** What the outside answers to one promise: the time it took on the wall
    clock, whether it failed and with what reason, and, for an HTTP call
    that succeeded, the parsed body ([response.data]; unused for Firestore
    calls). *)
Record Reply : Type := {
  took : Z;
  fault : option value;
  body : value
}.

Definition do_sync {X : Type} (op : SyncOp X) (w : World) : X * World :=
  match op in SyncOp X return X * World with
  | NewDate => (now w, w)
  | ConsoleLog args => (tt, set_console (console w ++ [(Stdout, args)]) w)
  | ConsoleError args => (tt, set_console (console w ++ [(Stderr, args)]) w)
  | ResJson b => (tt, set_responses (responses w ++ [b]) w)
  end.

(** Starting a promise only records the call. *)
Definition start {X : Type} (op : AsyncOp X) (w : World) : World :=
  set_calls (calls w ++ [Called op]) w.

(** A promise settles: the clock has advanced; a failed call changes
    nothing else; a successful [set] without merge options replaces the
    whole document, a successful [get] reads it. *)
Definition settle {X : Type} (op : AsyncOp X) (r : Reply) (w : World)
  : Settled X * World :=
  let w' := set_now (now w + took r)%Z w in
  match fault r with
  | Some e => (Rejected e, w')
  | None =>
      match op in AsyncOp X return Settled X * World with
      | AxiosGet _ => (Fulfilled {| data := body r |}, w')
      | DocSet c d f => (Fulfilled tt, set_firestore (<[(c, d) := f]> (firestore w')) w')
      | DocGet c d => (Fulfilled (firestore w' !! (c, d)), w')
      end
  end.

(** How a call of an async function ends: its promise is fulfilled with
    the returned value or rejected with the thrown one. *)
Inductive Completion (A : Type) : Type :=
| Normal (a : A)
| Thrown (e : value).
Arguments Normal {A} a.
Arguments Thrown {A} e.

(** *** One call, run to completion *)

(** [env n] is the reply to the promise started when [n] promises had
    been started before. *)
Fixpoint run {A : Type} (env : nat -> Reply) (p : Prog A) (w : World)
  : Completion A * World :=
  match p with
  | Ret a => (Normal a, w)
  | Throw e => (Thrown e, w)
  | Sync op k => let '(x, w1) := do_sync op w in run env (k x) w1
  | Await op k =>
      let '(r, w2) := settle op (env (length (calls w))) (start op w) in
      run env (k r) w2
  end.

(** [n] runs of the task, one after the other. *)
Fixpoint cycles (env : nat -> Reply) (n : nat) (w : World) : World :=
  match n with
  | O => w
  | S n' => cycles env n' (snd (run env updateMarketPrices w))
  end.

(** *** The event loop *)

(** A call suspended at an [await], with the promise it waits for. *)
Inductive Task : Type :=
| Waiting {X : Type} (op : AsyncOp X) (k : Settled X -> Prog value).

Record Loop : Type := {
  world : World;
  in_flight : list Task;                 (* suspended calls, oldest first *)
  completed : list (Completion value)    (* how finished calls ended *)
}.

(** Run a call up to its next [await] or to its end. *)
Fixpoint advance (p : Prog value) (w : World) : (Completion value + Task) * World :=
  match p with
  | Ret a => (inl (Normal a), w)
  | Throw e => (inl (Thrown e), w)
  | Sync op k => let '(x, w1) := do_sync op w in advance (k x) w1
  | Await op k => (inr (Waiting op k), start op w)
  end.

(** Calling an async function: it runs at once up to its first [await]. *)
Definition invoke (p : Prog value) (s : Loop) : Loop :=
  match advance p (world s) with
  | (inl c, w) => {| world := w; in_flight := in_flight s; completed := completed s ++ [c] |}
  | (inr t, w) => {| world := w; in_flight := in_flight s ++ [t]; completed := completed s |}
  end.

(** The promise the [i]-th suspended call waits for settles with [r], and
    the call goes on up to its next [await] or to its end. *)
Definition resume (i : nat) (r : Reply) (s : Loop) : Loop :=
  match in_flight s !! i with
  | None => s
  | Some (Waiting op k) =>
      let '(x, w1) := settle op r (world s) in
      match advance (k x) w1 with
      | (inl c, w2) =>
          {| world := w2; in_flight := delete i (in_flight s);
             completed := completed s ++ [c] |}
      | (inr t, w2) =>
          {| world := w2; in_flight := <[i := t]> (in_flight s);
             completed := completed s |}
      end
  end.

(** What happens on the loop: the market cron job fires
    ([cron.schedule("0 9,15 * * *", updateMarketPrices)] calls the task
    at every matching minute and does nothing else), a [GET /api/market]
    request arrives, or a promise settles. *)
Inductive Event : Type :=
| Tick
| GetMarket
| Settles (i : nat) (r : Reply).

Definition step (s : Loop) (ev : Event) : Loop :=
  match ev with
  | Tick => invoke updateMarketPrices s
  | GetMarket => invoke market_handler s
  | Settles i r => resume i r s
  end.

Definition steps (s : Loop) (evs : list Event) : Loop := fold_left step evs s.

(** A suspended call that waits for its [axios.get]. *)
Definition fetching (t : Task) : bool :=
  match t with
  | Waiting (AxiosGet _) _ => true
  | Waiting _ _ => false
  end.

Definition is_write (c : Call) : bool :=
  match c with
  | Called (DocSet _ _ _) => true
  | Called _ => false
  end.

(** ** Vocabulary of the statements *)

Definition market_doc (w : World) : option fields := firestore w !! ("market", "prices").

(** The [updatedAt] stamp of the stored market document, if it has one. *)
Definition stamp (w : World) : option string :=
  match market_doc w with
  | Some f => match f !! "updatedAt" with
              | Some (VStr s) => Some s
              | _ => None
              end
  | None => None
  end.

(** During a run of the task started in [w] against [env]: the clock when
    the fetch has settled, which [new Date()] reads; the object given to
    [set]; the two calls made. *)
Definition saved_at (env : nat -> Reply) (w : World) : Z :=
  (now w + took (env (length (calls w))))%Z.

Definition saved_fields (env : nat -> Reply) (w : World) : fields :=
  <["updatedAt" := VStr (Date.toISOString (saved_at env w))]>
    (spread (body (env (length (calls w))))).

Definition the_fetch : Call :=
  Called (AxiosGet "https://api.example.com/agriculture/market-prices").

Definition the_write (env : nat -> Reply) (w : World) : Call :=
  Called (DocSet "market" "prices" (saved_fields env w)).

Definition the_read : Call := Called (DocGet "market" "prices").

(** The world when the read of [getCachedPrices] started in [w] has
    settled. *)
Definition after_read (env : nat -> Reply) (w : World) : World :=
  {| now := (now w + took (env (length (calls w))))%Z;
     firestore := firestore w; console := console w;
     calls := calls w ++ [the_read]; responses := responses w |}.

(** The number of [set] calls made so far. *)
Definition writes (w : World) : nat := length (List.filter is_write (calls w)).

Definition failed_line (e : value) : Stream * list value :=
  (Stderr, [VStr "❌ Failed to update prices"; e]).

Definition updated_line : Stream * list value :=
  (Stdout, [VStr "✅ Market prices updated"]).




(** What a program can observe of the world: the clock and the store.
    No operation reads the console, the trace of calls or the responses. *)
Definition same_view (w1 w2 : World) : Prop :=
  now w1 = now w2 /\ firestore w1 = firestore w2.

(** Two environments that answer alike the calls to come in two worlds. *)
Definition same_replies (env1 env2 : nat -> Reply) (w1 w2 : World) : Prop :=
  forall k, env1 (length (calls w1) + k) = env2 (length (calls w2) + k).

(** A run of the task in which the fetch or the write fails with [e]. *)
Definition run_fails (env : nat -> Reply) (w : World) (e : value) : Prop :=
  fault (env (length (calls w))) = Some e
  \/ (fault (env (length (calls w))) = None
      /\ fault (env (S (length (calls w)))) = Some e).

(** Programs that cannot throw. *)
Inductive never_throws {A : Type} : Prog A -> Prop :=
| nt_ret a : never_throws (Ret a)
| nt_sync {X} (op : SyncOp X) k :
    (forall x, never_throws (k x)) -> never_throws (Sync op k)
| nt_await {X} (op : AsyncOp X) k :
    (forall r, never_throws (k r)) -> never_throws (Await op k).

Definition never_throws_task (t : Task) : Prop :=
  match t with
  | Waiting op k => forall r, never_throws (k r)
  end.

Definition is_normal {A} (c : Completion A) : Prop :=
  match c with
  | Normal _ => True
  | Thrown _ => False
  end.

(** A loop on which no call has thrown and no suspended call can. *)
Definition sound (s : Loop) : Prop :=
  Forall never_throws_task (in_flight s) /\ Forall is_normal (completed s).

Definition idle (w : World) : Loop :=
  {| world := w; in_flight := []; completed := [] |}.

(** The events of the refresh path: ticks and the settling of promises. *)
Definition refresh_event (ev : Event) : Prop :=
  match ev with
  | GetMarket => False
  | _ => True
  end.

(** ** Vocabulary of the further properties *)

Definition is_request (c : Call) : bool :=
  match c with
  | Called (AxiosGet _) => true
  | Called _ => false
  end.

(** The number of [axios.get] calls made so far. *)
Definition requests (w : World) : nat := length (List.filter is_request (calls w)).

(** The replies to the fetch and to the write of a run of the task started
    in [w] both report success. *)
Definition run_succeeds (env : nat -> Reply) (w : World) : Prop :=
  fault (env (length (calls w))) = None
  /\ fault (env (S (length (calls w)))) = None.



(** Programs all of whose synchronous calls satisfy [okS] and all of whose
    promises satisfy [okA], along every continuation that a settlement
    allowed by [poss] can select. *)
Inductive obeys (okS : forall X, SyncOp X -> Prop) (okA : forall X, AsyncOp X -> Prop)
    (poss : forall X, AsyncOp X -> Settled X -> Prop) {A : Type} : Prog A -> Prop :=
| ob_ret a : obeys okS okA poss (Ret a)
| ob_throw e : obeys okS okA poss (Throw e)
| ob_sync {X} (op : SyncOp X) k :
    okS X op -> (forall x, obeys okS okA poss (k x)) -> obeys okS okA poss (Sync op k)
| ob_await {X} (op : AsyncOp X) k :
    okA X op -> (forall r, poss X op r -> obeys okS okA poss (k r)) ->
    obeys okS okA poss (Await op k).

Definition task_obeys (okS : forall X, SyncOp X -> Prop) (okA : forall X, AsyncOp X -> Prop)
    (poss : forall X, AsyncOp X -> Settled X -> Prop) (t : Task) : Prop :=
  match t with
  | Waiting op k => okA _ op /\ forall r, poss _ op r -> obeys okS okA poss (k r)
  end.





(** The discipline of the read path alone, from [w0]: no [set], no HTTP
    call, no line on the console; one kind of read, and [res.json] is
    given the market document of [w0]. *)
Definition serves_stored (w0 : World) (X : Type) (op : SyncOp X) : Prop :=
  match op with
  | NewDate => True
  | ConsoleLog _ => False
  | ConsoleError _ => False
  | ResJson b => b = snapshot_data (market_doc w0)
  end.

Definition reads_only (X : Type) (op : AsyncOp X) : Prop :=
  match op with
  | DocGet c d => (c, d) = ("market", "prices")
  | _ => False
  end.

Definition reads_stored (w0 : World) (X : Type) (op : AsyncOp X) : Settled X -> Prop :=
  match op in AsyncOp X return Settled X -> Prop with
  | DocGet _ _ => fun r => match r with
                           | Fulfilled o => o = market_doc w0
                           | Rejected _ => True
                           end
  | _ => fun _ => True
  end.

Definition kept_stored (w0 w : World) : Prop :=
  firestore w = firestore w0
  /\ console w = console w0
  /\ requests w = requests w0
  /\ writes w = writes w0
  /\ exists n, responses w = responses w0 ++ replicate n (snapshot_data (market_doc w0)).

(** The events of the read path: requests and the settling of promises. *)
Definition read_event (ev : Event) : Prop :=
  match ev with
  | Tick => False
  | _ => True
  end.

(** ** Sample worlds and replies *)

Definition blank (t : Z) : World :=
  {| now := t; firestore := ∅; console := []; calls := []; responses := [] |}.

Definition ok (ms : Z) (b : value) : Reply := {| took := ms; fault := None; body := b |}.
Definition fails (ms : Z) (e : value) : Reply := {| took := ms; fault := Some e; body := VUndefined |}.

Definition rice : value := VObj {[ "rice" := VNum 32.5 ]}.

(** A world whose market document was stamped in 2030, read at
    2025-11-02T21:06:00.000Z. *)
Definition stale_world : World :=
  {| now := 1762117560000;
     firestore :=
       {[ ("market", "prices") :=
            {[ "rice" := VNum 30;
               "updatedAt" := VStr "2030-01-01T00:00:00.000Z" ]} ]};
     console := []; calls := []; responses := [] |}.

(** The fetch succeeds, the write is refused, later calls succeed. *)
Definition write_refused (i : nat) : Reply :=
  match i with
  | 0%nat => ok 10 rice
  | 1%nat => fails 10 (VStr "UNAVAILABLE")
  | _ => ok 10 VUndefined
  end.


(** ** Tactics *)

(** Linear arithmetic with the quotients and remainders of divisions by
    constants. *)
Ltac zdiv := Z.to_euclidean_division_equations; lia.

(** Case analysis on every [<?] test in sight. *)
Ltac split_ltb :=
  repeat match goal with
         | |- context [(?a <? ?b)%Z] => destruct (Z.ltb_spec a b)
         | H : context [(?a <? ?b)%Z] |- _ => destruct (Z.ltb_spec a b)
         end.

(** * Properties *)

Example toISOString_epoch : Date.toISOString 0 = "1970-01-01T00:00:00.000Z".
Proof. reflexivity. Qed.
Example toISOString_2023 :
  Date.toISOString 1700000000000 = "2023-11-14T22:13:20.000Z".
Proof. vm_compute. reflexivity. Qed.
Example toISOString_leap_day :
  Date.toISOString 951782400000 = "2000-02-29T00:00:00.000Z".
Proof. vm_compute. reflexivity. Qed.
Example toISOString_before_epoch :
  Date.toISOString (-1) = "1969-12-31T23:59:59.999Z".
Proof. vm_compute. reflexivity. Qed.
Example toISOString_expanded_year :
  Date.toISOString 253402300800000 = "+010000-01-01T00:00:00.000Z".
Proof. vm_compute. reflexivity. Qed.

Example spread_array : spread (VArr [VNull; VBool true]) !! "1" = Some (VBool true).
Proof. vm_compute. reflexivity. Qed.
Example spread_string : spread (VStr "ab") !! "0" = Some (VStr "a").
Proof. vm_compute. reflexivity. Qed.
Example spread_null : spread VNull = ∅.
Proof. reflexivity. Qed.

(** ** The calendar and the order of the rendered dates *)

Module DateFacts.
Import Date.
Local Open Scope Z_scope.

Lemma DayFromYear_mono y y' : y <= y' -> DayFromYear y <= DayFromYear y'.
Proof. unfold DayFromYear. intros. zdiv. Qed.

Lemma YearFromDay_spec d :
  DayFromYear (YearFromDay d) <= d < DayFromYear (YearFromDay d + 1).
Proof.
  unfold YearFromDay. cbv zeta.
  destruct (Z.leb_spec (DayFromYear (1970 + d * 400 / 146097 + 1)) d) as [H|H].
  2: destruct (Z.ltb_spec d (DayFromYear (1970 + d * 400 / 146097))) as [H'|H'].
  all: unfold DayFromYear in *; zdiv.
Qed.

Lemma YearFromDay_mono d d' : d <= d' -> YearFromDay d <= YearFromDay d'.
Proof.
  intros H. pose proof (YearFromDay_spec d). pose proof (YearFromDay_spec d').
  destruct (Z.le_gt_cases (YearFromDay d) (YearFromDay d')) as [|Hlt]; [assumption|].
  pose proof (DayFromYear_mono (YearFromDay d' + 1) (YearFromDay d)). lia.
Qed.

Lemma DaysInYear_spec y : DayFromYear (y + 1) = DayFromYear y + DaysInYear y.
Proof.
  unfold DayFromYear, DaysInYear.
  destruct (Z.eqb_spec (y mod 4) 0), (Z.eqb_spec (y mod 100) 0), (Z.eqb_spec (y mod 400) 0);
    cbn [negb]; zdiv.
Qed.

Lemma InLeapYear_01 t : InLeapYear t = 0 \/ InLeapYear t = 1.
Proof. unfold InLeapYear. destruct (_ =? _); auto. Qed.

Lemma InLeapYear_spec t : DaysInYear (YearFromTime t) = 365 + InLeapYear t.
Proof.
  unfold InLeapYear. destruct (Z.eqb_spec (DaysInYear (YearFromTime t)) 366) as [->|H]; [reflexivity|].
  revert H. unfold DaysInYear. repeat destruct (negb _); lia.
Qed.

Lemma DayWithinYear_bounds t : 0 <= DayWithinYear t < 365 + InLeapYear t.
Proof.
  unfold DayWithinYear. rewrite <- InLeapYear_spec. unfold YearFromTime.
  pose proof (YearFromDay_spec (Day t)) as H.
  rewrite DaysInYear_spec in H. lia.
Qed.

(** The month and the day of the month from the day within the year and
    the leap flag. *)
Lemma month_date_bounds t :
  0 <= MonthFromTime t <= 11 /\ 1 <= DateFromTime t <= 31.
Proof.
  pose proof (DayWithinYear_bounds t). pose proof (InLeapYear_01 t).
  unfold DateFromTime, MonthFromTime. cbv zeta.
  split_ltb; cbv beta iota; lia.
Qed.

Lemma month_date_lt t1 t2 :
  YearFromTime t1 = YearFromTime t2 -> Day t1 < Day t2 ->
  MonthFromTime t1 < MonthFromTime t2
  \/ (MonthFromTime t1 = MonthFromTime t2 /\ DateFromTime t1 < DateFromTime t2).
Proof.
  intros HY Hd.
  pose proof (DayWithinYear_bounds t1). pose proof (DayWithinYear_bounds t2).
  pose proof (InLeapYear_01 t1).
  assert (Hl : InLeapYear t1 = InLeapYear t2) by (unfold InLeapYear; rewrite HY; reflexivity).
  assert (Hw : DayWithinYear t1 < DayWithinYear t2) by (unfold DayWithinYear; rewrite HY; lia).
  unfold DateFromTime, MonthFromTime. cbv zeta. rewrite <- Hl in *.
  set (w1 := DayWithinYear t1) in *. set (w2 := DayWithinYear t2) in *.
  set (l := InLeapYear t1) in *. clearbody w1 w2 l. clear HY Hd Hl.
  split_ltb; cbv beta iota; lia.
Qed.

Lemma date_of_day t1 t2 :
  Day t1 = Day t2 ->
  YearFromTime t1 = YearFromTime t2 /\ MonthFromTime t1 = MonthFromTime t2
  /\ DateFromTime t1 = DateFromTime t2.
Proof.
  intros H.
  assert (HY : YearFromTime t1 = YearFromTime t2) by (unfold YearFromTime; rewrite H; reflexivity).
  assert (Hl : InLeapYear t1 = InLeapYear t2) by (unfold InLeapYear; rewrite HY; reflexivity).
  assert (Hw : DayWithinYear t1 = DayWithinYear t2) by (unfold DayWithinYear; rewrite H, HY; reflexivity).
  unfold DateFromTime, MonthFromTime. rewrite HY, Hl, Hw. auto.
Qed.

Lemma time_bounds t :
  0 <= HourFromTime t <= 23 /\ 0 <= MinFromTime t <= 59
  /\ 0 <= SecFromTime t <= 59 /\ 0 <= msFromTime t <= 999.
Proof. unfold HourFromTime, MinFromTime, SecFromTime, msFromTime. zdiv. Qed.


(** *** Comparing the rendered strings *)

Lemma compare_same_head c r1 r2 :
  String.compare (String c r1) (String c r2) = String.compare r1 r2.
Proof.
  cbn [String.compare]. unfold Ascii.compare. rewrite N.compare_refl. reflexivity.
Qed.

Lemma compare_app a : forall b r1 r2,
  String.length a = String.length b ->
  String.compare (a +:+ r1) (b +:+ r2)
  = lex (String.compare a b) (String.compare r1 r2).
Proof.
  induction a as [|c a IH]; intros [|c' b] r1 r2 Hlen; try discriminate Hlen.
  - reflexivity.
  - change (String.compare (String c (a +:+ r1)) (String c' (b +:+ r2))
            = lex (String.compare (String c a) (String c' b)) (String.compare r1 r2)).
    cbn [String.compare]. destruct (Ascii.compare c c'); cbn [lex]; try reflexivity.
    apply IH. cbn in Hlen. congruence.
Qed.

Lemma length_app_string a : forall b,
  String.length (a +:+ b) = (String.length a + String.length b)%nat.
Proof.
  induction a as [|c a IH]; intros b; [reflexivity|].
  change (S (String.length (a +:+ b)) = S (String.length a + String.length b)).
  rewrite IH. reflexivity.
Qed.

Lemma digits_length w : forall n, String.length (digits w n) = w.
Proof.
  induction w as [|w IH]; intros n; cbn [digits]; [reflexivity|].
  rewrite length_app_string, IH. cbn. lia.
Qed.

Lemma N_of_digit n : N_of_ascii (digit n) = (48 + Z.to_N (n mod 10))%N.
Proof.
  unfold digit, ascii_of_nat. rewrite N_ascii_embedding.
  - pose proof (Z.mod_pos_bound n 10). lia.
  - pose proof (Z.mod_pos_bound n 10). lia.
Qed.

Lemma compare_digit a b :
  Ascii.compare (digit a) (digit b) = (a mod 10 ?= b mod 10).
Proof.
  unfold Ascii.compare. rewrite !N_of_digit, <- N2Z.inj_compare, !N2Z.inj_add.
  pose proof (Z.mod_pos_bound a 10). pose proof (Z.mod_pos_bound b 10).
  rewrite !Z2N.id, Z.add_compare_mono_l by lia. reflexivity.
Qed.

Lemma compare_digits w : forall n1 n2,
  0 <= n1 < 10 ^ Z.of_nat w -> 0 <= n2 < 10 ^ Z.of_nat w ->
  String.compare (digits w n1) (digits w n2) = (n1 ?= n2).
Proof.
  induction w as [|w IH]; intros n1 n2 H1 H2.
  - cbn in *. assert (n1 = n2) as -> by lia. symmetry. apply Z.compare_refl.
  - rewrite Nat2Z.inj_succ, Z.pow_succ_r in H1, H2 by lia.
    cbn [digits]. rewrite compare_app by (rewrite !digits_length; reflexivity).
    rewrite IH by zdiv. cbn [String.compare]. rewrite compare_digit.
    destruct (Z.compare_spec (n1 / 10) (n2 / 10)); cbn [lex].
    + destruct (Z.compare_spec (n1 mod 10) (n2 mod 10)); symmetry.
      * apply Z.compare_eq_iff. zdiv.
      * apply Z.compare_lt_iff. zdiv.
      * apply Z.compare_gt_iff. zdiv.
    + symmetry. apply Z.compare_lt_iff. zdiv.
    + symmetry. apply Z.compare_gt_iff. zdiv.
Qed.

Lemma four_digit_year_spec t :
  four_digit_year t -> 0 <= YearFromTime t <= 9999.
Proof.
  unfold four_digit_year, YearFromTime. intros H.
  assert (H1 : -719528 <= Day t <= 2932896) by (unfold Day, msPerDay; zdiv).
  pose proof (YearFromDay_mono (-719528) (Day t) (proj1 H1)) as Ha.
  pose proof (YearFromDay_mono (Day t) 2932896 (proj2 H1)) as Hb.
  change (YearFromDay (-719528)) with 0 in Ha.
  change (YearFromDay 2932896) with 9999 in Hb. lia.
Qed.

Lemma compare_field w n1 n2 c r1 r2 :
  0 <= n1 < 10 ^ Z.of_nat w -> 0 <= n2 < 10 ^ Z.of_nat w ->
  String.compare (digits w n1 +:+ String c r1) (digits w n2 +:+ String c r2)
  = lex (n1 ?= n2) (String.compare r1 r2).
Proof.
  intros H1 H2. rewrite compare_app by (rewrite !digits_length; reflexivity).
  rewrite compare_digits, compare_same_head by assumption. reflexivity.
Qed.

Lemma toISOString_four_digit_year t :
  four_digit_year t ->
  toISOString t
  = digits 4 (YearFromTime t) +:+ String "-"
      (digits 2 (MonthFromTime t + 1) +:+ String "-"
         (digits 2 (DateFromTime t) +:+ String "T"
            (digits 2 (HourFromTime t) +:+ String ":"
               (digits 2 (MinFromTime t) +:+ String ":"
                  (digits 2 (SecFromTime t) +:+ String "."
                     (digits 3 (msFromTime t) +:+ String "Z" EmptyString)))))).
Proof.
  intros R. pose proof (four_digit_year_spec t R) as Y.
  unfold toISOString, year_string.
  replace ((0 <=? YearFromTime t) && (YearFromTime t <=? 9999)) with true
    by (symmetry; apply andb_true_iff; split; apply Z.leb_le; lia).
  reflexivity.
Qed.

Lemma toISOString_compare t1 t2 :
  four_digit_year t1 -> four_digit_year t2 ->
  String.compare (toISOString t1) (toISOString t2)
  = lex (YearFromTime t1 ?= YearFromTime t2)
      (lex (MonthFromTime t1 ?= MonthFromTime t2)
         (lex (DateFromTime t1 ?= DateFromTime t2)
            (lex (HourFromTime t1 ?= HourFromTime t2)
               (lex (MinFromTime t1 ?= MinFromTime t2)
                  (lex (SecFromTime t1 ?= SecFromTime t2)
                     (msFromTime t1 ?= msFromTime t2)))))).
Proof.
  intros R1 R2.
  pose proof (four_digit_year_spec t1 R1) as Y1.
  pose proof (four_digit_year_spec t2 R2) as Y2.
  pose proof (month_date_bounds t1) as [M1 D1].
  pose proof (month_date_bounds t2) as [M2 D2].
  pose proof (time_bounds t1) as (h1 & m1 & s1 & ms1).
  pose proof (time_bounds t2) as (h2 & m2 & s2 & ms2).
  rewrite !toISOString_four_digit_year by assumption.
  rewrite !compare_field by (simpl Z.pow; lia).
  rewrite (Z.add_comm (MonthFromTime t1)), (Z.add_comm (MonthFromTime t2)), Z.add_compare_mono_l.
  destruct (msFromTime t1 ?= msFromTime t2); reflexivity.
Qed.

End DateFacts.

(** ** One run of the task and one read, in closed form *)

Lemma updateMarketPrices_run env w :
  run env updateMarketPrices w =
    match fault (env (length (calls w))) with
    | Some e =>
        (Normal VUndefined,
         {| now := saved_at env w; firestore := firestore w;
            console := console w ++ [failed_line e];
            calls := calls w ++ [the_fetch];
            responses := responses w |})
    | None =>
        match fault (env (S (length (calls w)))) with
        | Some e =>
            (Normal VUndefined,
             {| now := (saved_at env w + took (env (S (length (calls w)))))%Z;
                firestore := firestore w;
                console := console w ++ [failed_line e];
                calls := (calls w ++ [the_fetch]) ++ [the_write env w];
                responses := responses w |})
        | None =>
            (Normal VUndefined,
             {| now := (saved_at env w + took (env (S (length (calls w)))))%Z;
                firestore := <[("market", "prices") := saved_fields env w]> (firestore w);
                console := console w ++ [updated_line];
                calls := (calls w ++ [the_fetch]) ++ [the_write env w];
                responses := responses w |})
        end
    end.
Proof.
  unfold updateMarketPrices, getPricesFromAPI, savePricesToDB, await,
    new_Date, console_log, console_error.
  cbn [bind try_catch run]. unfold settle at 1.
  destruct (fault (env (length (calls w)))) as [e|] eqn:H1.
  - reflexivity.
  - cbn [bind try_catch run do_sync start set_calls set_now calls now].
    unfold settle. rewrite length_app, Nat.add_1_r. cbn [length calls set_now].
    destruct (fault (env (S (length (calls w))))) as [e|] eqn:H2; reflexivity.
Qed.

Lemma getCachedPrices_run env w :
  run env getCachedPrices w =
    match fault (env (length (calls w))) with
    | Some e => (Thrown e, after_read env w)
    | None => (Normal (snapshot_data (market_doc w)), after_read env w)
    end.
Proof.
  unfold getCachedPrices, await. cbn [bind run]. unfold settle.
  destruct (fault (env (length (calls w)))); reflexivity.
Qed.

Lemma market_handler_run env w :
  run env market_handler w =
    match fault (env (length (calls w))) with
    | Some e => (Thrown e, after_read env w)
    | None =>
        (Normal VUndefined,
         set_responses (responses w ++ [snapshot_data (market_doc w)]) (after_read env w))
    end.
Proof.
  unfold market_handler, getCachedPrices, await, res_json. cbn [bind run].
  unfold settle. destruct (fault (env (length (calls w)))); reflexivity.
Qed.

(** ** Programs that cannot throw *)

Lemma never_throws_bind {A B} (p : Prog A) (f : A -> Prog B) :
  never_throws p -> (forall a, never_throws (f a)) -> never_throws (bind p f).
Proof.
  intros Hp Hf. induction Hp; cbn [bind]; auto using @never_throws.
Qed.

(** A [try] whose handler cannot throw cannot throw, whatever its body. *)
Lemma never_throws_try_catch {A} (p : Prog A) (h : value -> Prog A) :
  (forall e, never_throws (h e)) -> never_throws (try_catch p h).
Proof.
  intros Hh. induction p; cbn [try_catch]; auto using @never_throws.
Qed.

Lemma updateMarketPrices_never_throws : never_throws updateMarketPrices.
Proof.
  unfold updateMarketPrices. apply never_throws_bind.
  - apply never_throws_try_catch. intros e. unfold console_error.
    constructor. intros []. constructor.
  - intros _. constructor.
Qed.

Lemma never_throws_run {A} env (p : Prog A) :
  never_throws p -> forall w, exists a, fst (run env p w) = Normal a.
Proof.
  induction 1 as [a|X op k _ IH|X op k _ IH]; intros w; cbn [run].
  - eauto.
  - destruct (do_sync op w) as [x w1]. apply IH.
  - destruct (settle op _ (start op w)) as [r w2]. apply IH.
Qed.

Lemma never_throws_advance (p : Prog value) :
  never_throws p -> forall w,
  match fst (advance p w) with
  | inl c => is_normal c
  | inr t => never_throws_task t
  end.
Proof.
  induction 1 as [a|X op k _ IH|X op k Hk _]; intros w; cbn [advance].
  - exact I.
  - destruct (do_sync op w) as [x w1]. apply IH.
  - exact Hk.
Qed.

Lemma sound_invoke p s : never_throws p -> sound s -> sound (invoke p s).
Proof.
  intros Hp [Hf Hc]. unfold invoke.
  pose proof (never_throws_advance p Hp (world s)) as H.
  destruct (advance p (world s)) as [[c|t] w1]; cbn [fst] in H; split; cbn; auto.
  - apply Forall_app; auto.
  - apply Forall_app; auto.
Qed.

Lemma sound_resume i r s : sound s -> sound (resume i r s).
Proof.
  intros [Hf Hc]. unfold resume.
  destruct (in_flight s !! i) as [[X op k]|] eqn:Hi; [|split; assumption].
  assert (Hk : never_throws_task (Waiting op k)).
  { eapply Forall_lookup_1; eassumption. }
  destruct (settle op r (world s)) as [x w1].
  pose proof (never_throws_advance (k x) (Hk x) w1) as H.
  destruct (advance (k x) w1) as [[c|t] w2]; cbn [fst] in H; split; cbn.
  - apply Forall_delete. assumption.
  - apply Forall_app; auto.
  - apply Forall_insert; assumption.
  - assumption.
Qed.

Lemma sound_steps evs :
  Forall refresh_event evs -> forall s, sound s -> sound (steps s evs).
Proof.
  induction 1 as [|ev evs Hev _ IH]; intros s Hs; [exact Hs|].
  cbn [steps fold_left]. apply IH. destruct ev; cbn [step].
  - apply sound_invoke; [apply updateMarketPrices_never_throws | assumption].
  - destruct Hev.
  - apply sound_resume; assumption.
Qed.

(** ** Runs of the task, one after the other *)

Lemma cycles_add env m : forall n w,
  cycles env (n + m) w = cycles env m (cycles env n w).
Proof. induction n as [|n IH]; intros w; [reflexivity|]. cbn [cycles Nat.add]. apply IH. Qed.






(** ** What a program cannot observe *)

(** Run in two worlds that show the same clock and the same store, against
    environments that answer alike, a program ends the same way and leaves
    the same clock and the same store. *)
Lemma run_same_view {A} (p : Prog A) : forall env1 env2 w1 w2,
  same_view w1 w2 -> same_replies env1 env2 w1 w2 ->
  fst (run env1 p w1) = fst (run env2 p w2)
  /\ same_view (snd (run env1 p w1)) (snd (run env2 p w2)).
Proof.
  induction p as [a|e|X op k IH|X op k IH]; intros env1 env2 w1 w2 Hv Hr; cbn [run].
  - split; [reflexivity | exact Hv].
  - split; [reflexivity | exact Hv].
  - destruct Hv as [Hn Hf].
    destruct op; cbn [do_sync]; try rewrite Hn; apply IH; try (split; assumption);
      exact Hr.
  - destruct Hv as [Hn Hf].
    pose proof (Hr 0) as H0. rewrite !Nat.add_0_r in H0.
    assert (Hr' : forall v1 v2, calls v1 = calls (start op w1) ->
                                calls v2 = calls (start op w2) ->
                                same_replies env1 env2 v1 v2).
    { intros v1 v2 E1 E2 j. rewrite E1, E2. cbn [start set_calls calls].
      rewrite !length_app. cbn [length].
      specialize (Hr (S j)). rewrite <- !Nat.add_assoc. exact Hr. }
    unfold settle. cbn [start set_calls set_now now firestore calls].
    rewrite H0, Hn.
    destruct (fault (env2 (length (calls w2)))) as [e|].
    + apply IH; [split; [reflexivity | exact Hf] | apply Hr'; reflexivity].
    + destruct op; cbn [set_firestore set_now start set_calls firestore now calls];
        rewrite ?Hf;
        (apply IH; [split; cbn [set_firestore set_now start set_calls firestore now calls];
                      rewrite ?Hf; reflexivity
                   | apply Hr'; reflexivity]).
Qed.

(** ** The loop and the run to completion agree *)


(** * The claims *)

(** ** Publishing a snapshot (C1) *)




(** ** Overlapping runs (C2) *)

(** C2, as stated, fails: the task keeps no record of a run in flight.
    Two ticks in a row, the first run still waiting for its fetch, leave
    two runs suspended, each on its own [axios.get]; the second call did
    not return and nothing was skipped. *)
Lemma C2_two_ticks_two_fetches :
  let s := steps (idle (blank 0)) [Tick; Tick] in
  length (in_flight s) = 2
  /\ forallb fetching (in_flight s) = true
  /\ calls (world s) = [the_fetch; the_fetch]
  /\ completed s = []
  /\ console (world s) = [].
Proof. repeat split. Qed.

(** C2, amended.  Every tick calls the task, whatever is in flight: the
    call starts one more [axios.get] at once and is suspended on it next
    to the runs already in flight; it does not return first, no result
    (Skipped or other) is produced, and nothing is logged or queued.  So
    [n] ticks in a row, none of the fetches settling meanwhile, put [n]
    more runs in flight on [n] more fetches. *)
Theorem C2_every_tick_starts_a_fetch :
  (forall s, exists k,
      step s Tick
      = {| world := set_calls (calls (world s) ++ [the_fetch]) (world s);
           in_flight :=
             in_flight s
             ++ [Waiting (AxiosGet "https://api.example.com/agriculture/market-prices") k];
           completed := completed s |})
  /\ (forall n s,
      let s' := steps s (replicate n Tick) in
      length (in_flight s') = length (in_flight s) + n
      /\ calls (world s') = calls (world s) ++ replicate n the_fetch
      /\ completed s' = completed s
      /\ console (world s') = console (world s)).
Proof.
  split.
  - intros s. eexists. reflexivity.
  - induction n as [|n IH]; intros s; cbv zeta.
    + cbn. rewrite Nat.add_0_r, app_nil_r. repeat split.
    + cbn [replicate steps fold_left]. specialize (IH (step s Tick)). cbv zeta in IH.
      unfold steps in IH. destruct IH as (H1 & H2 & H3 & H4).
      rewrite H1, H2, H3, H4. cbn [step invoke]. cbn.
      rewrite length_app, <- app_assoc. cbn. repeat split. lia.
Qed.

(** ** A failed fetch (C3) *)

(** C3, as stated, fails in one part: no failure result is returned.  The
    promise of a run whose fetch failed is fulfilled with [undefined],
    exactly as that of a run that succeeded; the failure shows on the
    console only. *)
Lemma C3_failed_fetch_returns_undefined :
  fst (run (fun _ => fails 10 (VStr "Network Error")) updateMarketPrices stale_world)
  = Normal VUndefined
  /\ fst (run (fun _ => ok 10 rice) updateMarketPrices stale_world)
     = Normal VUndefined.
Proof. split; reflexivity. Qed.

(** C3, amended.  When the fetch fails, the run writes the error to
    [console.error] and ends normally with [undefined] (no failure
    result); it makes no write, the Firestore store is exactly what it
    was, and a read that succeeds afterwards returns what it would have
    returned before. *)
Theorem C3_failed_fetch_leaves_store (env : nat -> Reply) (w : World) (e : value) :
  fault (env (length (calls w))) = Some e ->
  let w' := snd (run env updateMarketPrices w) in
  fst (run env updateMarketPrices w) = Normal VUndefined
  /\ console w' = console w ++ [failed_line e]
  /\ calls w' = calls w ++ [the_fetch]
  /\ firestore w' = firestore w
  /\ (forall env', fault (env' (length (calls w'))) = None ->
      fst (run env' getCachedPrices w') = Normal (snapshot_data (market_doc w))).
Proof.
  intros H. cbv zeta. rewrite updateMarketPrices_run, H. cbn [fst snd console calls firestore].
  repeat split. intros env' H'. rewrite getCachedPrices_run. cbn [calls] in *. rewrite H'.
  reflexivity.
Qed.

Lemma C3_failed_fetch_leaves_store_witness :
  firestore (snd (run (fun _ => fails 10 (VStr "Network Error")) updateMarketPrices stale_world))
  = firestore stale_world.
Proof.
  apply (C3_failed_fetch_leaves_store
           (fun _ => fails 10 (VStr "Network Error")) stale_world (VStr "Network Error")).
  reflexivity.
Defined.

(** ** Reading the snapshot (C4) *)

(** C4, as stated, fails: with no market document stored, [doc.data()] is
    [undefined], [getCachedPrices] returns it and the handler hands it to
    [res.json]; no Unavailable status exists. *)
Lemma C4_absent_document_reads_undefined :
  market_doc (blank 0) = None
  /\ fst (run (fun _ => ok 5 VUndefined) getCachedPrices (blank 0)) = Normal VUndefined
  /\ responses (snd (run (fun _ => ok 5 VUndefined) market_handler (blank 0)))
     = [VUndefined].
Proof. repeat split. Qed.

(** C4, amended.  There is no in-memory store: every call of
    [getCachedPrices] makes exactly one read of the market document.  When
    the read succeeds, the call returns the fields of the document if it
    exists and [undefined] if it does not, and the handler of
    [GET /api/market] gives that value to [res.json]. *)
Theorem C4_one_read_then_fields_or_undefined (env : nat -> Reply) (w : World) :
  fault (env (length (calls w))) = None ->
  let answer := match market_doc w with
                | Some f => VObj f
                | None => VUndefined
                end in
  fst (run env getCachedPrices w) = Normal answer
  /\ calls (snd (run env getCachedPrices w)) = calls w ++ [the_read]
  /\ firestore (snd (run env getCachedPrices w)) = firestore w
  /\ fst (run env market_handler w) = Normal VUndefined
  /\ responses (snd (run env market_handler w)) = responses w ++ [answer]
  /\ calls (snd (run env market_handler w)) = calls w ++ [the_read].
Proof.
  intros H. cbv zeta. rewrite getCachedPrices_run, market_handler_run, H.
  repeat split.
Qed.

Lemma C4_one_read_then_fields_or_undefined_witness :
  fst (run (fun _ => ok 5 VUndefined) getCachedPrices stale_world)
  = Normal (VObj {[ "rice" := VNum 30;
                    "updatedAt" := VStr "2030-01-01T00:00:00.000Z" ]}).
Proof.
  apply (C4_one_read_then_fields_or_undefined (fun _ => ok 5 VUndefined) stale_world).
  reflexivity.
Defined.

(** ** A failed write (C5) *)

(** C5, as stated, fails: the only store is the Firestore document.  When
    the write of the fetched price 32.5 is refused, the read that follows
    still returns the old document, with price 30. *)
Lemma C5_failed_write_publishes_nothing :
  let w' := snd (run write_refused updateMarketPrices stale_world) in
  console w' = [failed_line (VStr "UNAVAILABLE")]
  /\ fst (run write_refused getCachedPrices w')
     = Normal (VObj {[ "rice" := VNum 30;
                       "updatedAt" := VStr "2030-01-01T00:00:00.000Z" ]}).
Proof. split; vm_compute; reflexivity. Qed.

(** C5, amended.  When the fetch succeeds and the write fails, the run
    writes the error to [console.error] and ends normally; nothing is
    published anywhere: the store is exactly what it was, and a read that
    succeeds afterwards returns the document as it was before the run. *)
Theorem C5_failed_write_leaves_store (env : nat -> Reply) (w : World) (e : value) :
  fault (env (length (calls w))) = None ->
  fault (env (S (length (calls w)))) = Some e ->
  let w' := snd (run env updateMarketPrices w) in
  fst (run env updateMarketPrices w) = Normal VUndefined
  /\ console w' = console w ++ [failed_line e]
  /\ firestore w' = firestore w
  /\ (forall env', fault (env' (length (calls w'))) = None ->
      fst (run env' getCachedPrices w') = Normal (snapshot_data (market_doc w))).
Proof.
  intros H1 H2. cbv zeta. rewrite updateMarketPrices_run, H1, H2.
  cbn [fst snd console firestore]. repeat split.
  intros env' H'. rewrite getCachedPrices_run, H'. reflexivity.
Qed.

Lemma C5_failed_write_leaves_store_witness :
  firestore (snd (run write_refused updateMarketPrices stale_world))
  = firestore stale_world.
Proof.
  apply (C5_failed_write_leaves_store write_refused stale_world (VStr "UNAVAILABLE"));
    reflexivity.
Defined.

(** ** Validation (C6) *)

(** C6, as stated, fails: nothing checks the payload.  A fetch that
    returns the empty object, or [null], is persisted as a document that
    holds the stamp and no price. *)
Lemma C6_payload_without_price_is_persisted :
  market_doc (snd (run (fun _ => ok 10 (VObj ∅)) updateMarketPrices (blank 0)))
  = Some {[ "updatedAt" := VStr "1970-01-01T00:00:00.010Z" ]}
  /\ market_doc (snd (run (fun _ => ok 10 VNull) updateMarketPrices (blank 0)))
     = Some {[ "updatedAt" := VStr "1970-01-01T00:00:00.010Z" ]}.
Proof. split; vm_compute; reflexivity. Qed.

(** C6, amended.  No validation stands between the fetch and the save:
    whatever payload a successful fetch returns, with or without a
    commodity price, its spread plus the stamp is given to [set], and it
    is the stored document when the write succeeds. *)
Theorem C6_every_payload_is_saved (env : nat -> Reply) (w : World) :
  fault (env (length (calls w))) = None ->
  let w' := snd (run env updateMarketPrices w) in
  calls w' = (calls w ++ [the_fetch]) ++ [the_write env w]
  /\ (fault (env (S (length (calls w)))) = None ->
      market_doc w' = Some (saved_fields env w)
      /\ console w' = console w ++ [updated_line]).
Proof.
  intros H1. cbv zeta. rewrite updateMarketPrices_run, H1.
  destruct (fault (env (S (length (calls w))))) as [e|]; cbn [snd calls console].
  - split; [reflexivity | discriminate].
  - split; [reflexivity|]. intros _. split; [apply lookup_insert_eq | reflexivity].
Qed.

Lemma C6_every_payload_is_saved_witness :
  calls (snd (run (fun _ => ok 10 VNull) updateMarketPrices (blank 0)))
  = (calls (blank 0) ++ [the_fetch]) ++ [the_write (fun _ => ok 10 VNull) (blank 0)].
Proof.
  apply (C6_every_payload_is_saved (fun _ => ok 10 VNull) (blank 0)). reflexivity.
Defined.

(** ** What a successful run stores (C7, C9) *)

Lemma writes_app (w : World) (l : list Call) :
  length (List.filter is_write (calls w ++ l))
  = writes w + length (List.filter is_write l).
Proof. unfold writes. rewrite List.filter_app, length_app. reflexivity. Qed.




(** C9.  A run whose fetch and write succeed replaces the market document
    as a whole: the stored object is the spread of the fetched payload
    (its fields, when it is an object) in which [updatedAt] is set to the
    rendering of the clock read at the save, which is the clock of the
    start advanced by the time the fetch took.  So an [updatedAt] of the
    payload is overwritten, and a field of the document stored before
    that the payload does not have is gone. *)
Theorem C9_document_replaced_as_a_whole (env : nat -> Reply) (w : World) :
  fault (env (length (calls w))) = None ->
  fault (env (S (length (calls w)))) = None ->
  let w' := snd (run env updateMarketPrices w) in
  let payload := body (env (length (calls w))) in
  let at_save := Date.toISOString (now w + took (env (length (calls w)))) in
  market_doc w' = Some (<["updatedAt" := VStr at_save]> (spread payload))
  /\ (forall f, payload = VObj f ->
      market_doc w' = Some (<["updatedAt" := VStr at_save]> f))
  /\ (forall doc, market_doc w' = Some doc ->
      doc !! "updatedAt" = Some (VStr at_save)
      /\ (forall k, k <> "updatedAt" -> doc !! k = spread payload !! k)
      /\ (forall k, k <> "updatedAt" -> spread payload !! k = None -> doc !! k = None)).
Proof.
  intros H1 H2. cbv zeta. rewrite updateMarketPrices_run, H1, H2. cbn [snd].
  unfold market_doc. cbn [firestore]. rewrite lookup_insert_eq.
  unfold saved_fields, saved_at. split; [reflexivity|]. split.
  - intros f ->. reflexivity.
  - intros doc [= <-]. split; [apply lookup_insert_eq|]. split.
    + intros k Hk. rewrite lookup_insert_ne by congruence. reflexivity.
    + intros k Hk Hnone. rewrite lookup_insert_ne by congruence. exact Hnone.
Qed.

(** C9 at work: the document stamped 2030 with price 30 is replaced by the
    fetched price and the stamp of the save. *)
Lemma C9_document_replaced_as_a_whole_witness :
  market_doc (snd (run (fun _ => ok 250 rice) updateMarketPrices stale_world))
  = Some (<["updatedAt" := VStr (Date.toISOString (1762117560000 + 250))]>
            (spread rice)).
Proof.
  apply (C9_document_replaced_as_a_whole (fun _ => ok 250 rice) stale_world);
    reflexivity.
Defined.

(** ** Errors of the refresh path (C8) *)

(** C8.  A run of the task never throws: whatever the fetch and the write
    answer, its promise is fulfilled (with [undefined]); the error of a
    failed fetch or write, the only errors that can arise in it, is caught
    inside the task and written to [console.error], and the store is left
    as it was.  On the event loop, through any interleaving of ticks and
    settling promises, no call of the task ever ends by throwing.  No run,
    failed or not, touches a document other than the market one; and the
    task of another feed, whatever it is, run after a failed market run
    ends as, and leaves the store as, it would have had the market run not
    taken place and the same time passed, its calls answered alike. *)
Theorem C8_refresh_never_throws :
  (forall env w, fst (run env updateMarketPrices w) = Normal VUndefined)
  /\ (forall env w e,
      run_fails env w e ->
      console (snd (run env updateMarketPrices w)) = console w ++ [failed_line e]
      /\ firestore (snd (run env updateMarketPrices w)) = firestore w)
  /\ (forall w evs,
      Forall refresh_event evs ->
      Forall is_normal (completed (steps (idle w) evs)))
  /\ (forall env w c d,
      (c, d) <> ("market", "prices") ->
      firestore (snd (run env updateMarketPrices w)) !! (c, d) = firestore w !! (c, d))
  /\ (forall (other : Prog value) env w e env1 env2,
      run_fails env w e ->
      let w' := snd (run env updateMarketPrices w) in
      same_replies env1 env2 w' w ->
      fst (run env1 other w') = fst (run env2 other (set_now (now w') w))
      /\ firestore (snd (run env1 other w'))
         = firestore (snd (run env2 other (set_now (now w') w)))).
Proof.
  split; [|split; [|split; [|split]]].
  - intros env w. rewrite updateMarketPrices_run.
    destruct (fault (env (length (calls w))));
      [|destruct (fault (env (S (length (calls w)))))]; reflexivity.
  - intros env w e [H1|[H1 H2]]; rewrite updateMarketPrices_run, H1, ?H2; split; reflexivity.
  - intros w evs Hevs. apply (sound_steps evs Hevs (idle w)). split; constructor.
  - intros env w c d Hne. rewrite updateMarketPrices_run.
    destruct (fault (env (length (calls w))));
      [|destruct (fault (env (S (length (calls w)))))]; cbn [snd firestore];
      try reflexivity.
    apply lookup_insert_ne. congruence.
  - intros other env w e env1 env2 Hfail. cbv zeta. intros Hr.
    destruct (run_same_view other env1 env2
                (snd (run env updateMarketPrices w))
                (set_now (now (snd (run env updateMarketPrices w))) w)) as [Hc [_ Hf]].
    + split; [reflexivity|].
      destruct Hfail as [H1|[H1 H2]]; rewrite updateMarketPrices_run, H1, ?H2; reflexivity.
    + exact Hr.
    + split; assumption.
Qed.

(** C8 at work: two overlapping runs, the fetch of the first fails, the
    second goes through; both end normally. *)
Lemma C8_refresh_never_throws_witness :
  Forall is_normal
    (completed
       (steps (idle (blank 0))
          [Tick; Tick; Settles 0 (fails 10 (VStr "Network Error"));
           Settles 0 (ok 10 rice); Settles 0 (ok 10 VUndefined)]))
  /\ console (snd (run write_refused updateMarketPrices stale_world))
     = console stale_world ++ [failed_line (VStr "UNAVAILABLE")]
  /\ fst (run (fun _ => ok 5 VUndefined) getCachedPrices
            (snd (run write_refused updateMarketPrices stale_world)))
     = fst (run (fun _ => ok 5 VUndefined) getCachedPrices
              (set_now (now (snd (run write_refused updateMarketPrices stale_world)))
                 stale_world)).
Proof.
  destruct C8_refresh_never_throws as (_ & Hlog & Hloop & _ & Hother).
  split; [|split].
  - apply (Hloop (blank 0)). repeat constructor.
  - apply (Hlog write_refused stale_world (VStr "UNAVAILABLE")).
    right. split; reflexivity.
  - apply (Hother getCachedPrices write_refused stale_world (VStr "UNAVAILABLE")
             (fun _ => ok 5 VUndefined) (fun _ => ok 5 VUndefined)).
    + right. split; reflexivity.
    + intros k. reflexivity.
Defined.

(** ** Errors of the read path (C10) *)

(** C10.  When the read of the market document fails, the handler of
    [GET /api/market] ends by throwing the reason of the failure: its
    promise is rejected, [res.json] is not called, nothing is logged and
    no Unavailable value is made of the failure; on the event loop the
    request ends as a thrown completion.  With the same failing reply the
    refresh task ends normally. *)
Theorem C10_failed_read_rejects_the_handler (env : nat -> Reply) (w : World) (e : value) :
  fault (env (length (calls w))) = Some e ->
  fst (run env getCachedPrices w) = Thrown e
  /\ fst (run env market_handler w) = Thrown e
  /\ responses (snd (run env market_handler w)) = responses w
  /\ console (snd (run env market_handler w)) = console w
  /\ completed (steps (idle w) [GetMarket; Settles 0 (env (length (calls w)))])
     = [Thrown e]
  /\ responses (world (steps (idle w) [GetMarket; Settles 0 (env (length (calls w)))]))
     = responses w
  /\ fst (run env updateMarketPrices w) = Normal VUndefined.
Proof.
  intros H. rewrite getCachedPrices_run, market_handler_run, updateMarketPrices_run, H.
  cbn [fst snd]. repeat split.
  - cbn. unfold settle. rewrite H. reflexivity.
  - cbn. unfold settle. rewrite H. reflexivity.
Qed.

Lemma C10_failed_read_rejects_the_handler_witness :
  fst (run (fun _ => fails 10 (VStr "UNAVAILABLE")) market_handler stale_world)
  = Thrown (VStr "UNAVAILABLE")
  /\ responses (snd (run (fun _ => fails 10 (VStr "UNAVAILABLE")) market_handler stale_world))
     = [].
Proof.
  destruct (C10_failed_read_rejects_the_handler
              (fun _ => fails 10 (VStr "UNAVAILABLE")) stale_world (VStr "UNAVAILABLE")
              eq_refl) as (_ & H1 & H2 & _).
  split; [exact H1 | exact H2].
Defined.

(** * Further properties *)

(** ** The helpers on their own *)

Lemma savePricesToDB_run env w d :
  run env (savePricesToDB d) w =
    let f := <["updatedAt" := VStr (Date.toISOString (now w))]> (spread d) in
    let w1 := {| now := (now w + took (env (length (calls w))))%Z;
                 firestore := firestore w; console := console w;
                 calls := calls w ++ [Called (DocSet "market" "prices" f)];
                 responses := responses w |} in
    match fault (env (length (calls w))) with
    | Some e => (Thrown e, w1)
    | None =>
        (Normal VUndefined,
         set_firestore (<[("market", "prices") := f]> (firestore w)) w1)
    end.
Proof.
  unfold savePricesToDB, await, new_Date. cbn [bind run do_sync]. unfold settle.
  destruct (fault (env (length (calls w)))); reflexivity.
Qed.

Lemma getPricesFromAPI_run env w :
  run env getPricesFromAPI w =
    let w1 := {| now := (now w + took (env (length (calls w))))%Z;
                 firestore := firestore w; console := console w;
                 calls := calls w ++ [the_fetch]; responses := responses w |} in
    match fault (env (length (calls w))) with
    | Some e => (Thrown e, w1)
    | None => (Normal (body (env (length (calls w)))), w1)
    end.
Proof.
  unfold getPricesFromAPI, await. cbn [bind run]. unfold settle.
  destruct (fault (env (length (calls w)))); reflexivity.
Qed.

(** Saving then reading.  After [savePricesToDB d] has succeeded, a read
    that succeeds returns an object that, its [updatedAt] set aside, has
    exactly the properties [d] spreads to, its own [updatedAt] set aside:
    an object without [updatedAt] comes back whole, and the stamp is the
    clock of the call.  Nothing of the document stored before remains. *)
Theorem save_then_read_round_trip (env env' : nat -> Reply) (w : World) (d : value) :
  fault (env (length (calls w))) = None ->
  fault (env' (length (calls (snd (run env (savePricesToDB d) w))))) = None ->
  exists doc,
    fst (run env' getCachedPrices (snd (run env (savePricesToDB d) w)))
    = Normal (VObj doc)
    /\ doc !! "updatedAt" = Some (VStr (Date.toISOString (now w)))
    /\ delete "updatedAt" doc = delete "updatedAt" (spread d)
    /\ (forall f, d = VObj f -> f !! "updatedAt" = None -> delete "updatedAt" doc = f).
Proof.
  intros H1. rewrite savePricesToDB_run. cbv zeta. rewrite H1. cbn [snd].
  intros H2. rewrite getCachedPrices_run, H2. cbn [fst].
  unfold market_doc. cbn [set_firestore firestore]. rewrite lookup_insert_eq.
  eexists. split; [reflexivity|]. split; [apply lookup_insert_eq|]. split.
  - apply delete_insert_eq.
  - intros f -> Hf. rewrite delete_insert_eq. apply delete_id. exact Hf.
Qed.

Lemma save_then_read_round_trip_witness :
  exists doc,
    fst (run (fun _ => ok 5 VUndefined) getCachedPrices
           (snd (run (fun _ => ok 5 VUndefined) (savePricesToDB rice) stale_world)))
    = Normal (VObj doc)
    /\ delete "updatedAt" doc = {[ "rice" := VNum 32.5 ]}.
Proof.
  destruct (save_then_read_round_trip (fun _ => ok 5 VUndefined) (fun _ => ok 5 VUndefined)
              stale_world rice eq_refl eq_refl) as (doc & Hdoc & _ & _ & Hf).
  exists doc. split; [exact Hdoc | apply Hf; reflexivity].
Defined.

(** ** Payloads that are not objects *)

Lemma pretty_N_go_head (x : N) : forall s,
  pretty_N_go x s = s \/ exists y r, pretty_N_go x s = String (pretty_N_char y) r.
Proof.
  induction (N.lt_wf_0 x) as [x _ IH]; intros s.
  destruct (decide (x = 0)%N) as [->|Hx]; [left; apply pretty_N_go_0|].
  right. rewrite pretty_N_go_step by lia.
  destruct (IH (x `div` 10)%N ltac:(apply N.div_lt; lia)
              (String (pretty_N_char (x `mod` 10)) s)) as [->|H]; eauto.
Qed.

(** The decimal writing of an index starts with a digit. *)
Lemma pretty_nat_head (i : nat) : exists y r, pretty i = String (pretty_N_char y) r.
Proof.
  unfold pretty, pretty_nat, pretty, pretty_N.
  destruct (decide (N.of_nat i = 0)%N); [exists 0%N, EmptyString; reflexivity|].
  destruct (pretty_N_go_head (N.of_nat i) EmptyString) as [H|H]; [|exact H].
  exfalso. destruct (N.of_nat i) as [|p]; [congruence|].
  rewrite pretty_N_go_step in H by lia.
  destruct (pretty_N_go_head (N.pos p `div` 10)
              (String (pretty_N_char (N.pos p `mod` 10)) EmptyString)) as [H'|(y & r & H')];
    rewrite H' in H; discriminate H.
Qed.

Lemma pretty_nat_not_updatedAt (i : nat) : pretty i <> "updatedAt".
Proof.
  destruct (pretty_nat_head i) as (y & r & ->). intros [= H _].
  revert H. unfold pretty_N_char. repeat case_match; discriminate.
Qed.

Lemma indexed_keys (l : list value) : forall n,
  (imap (fun i v => (pretty (n + i), v)) l).*1 = (fun i => pretty (n + i)) <$> seq 0 (length l).
Proof.
  induction l as [|x l IH]; intros n; [reflexivity|].
  rewrite imap_cons. cbn [fmap list_fmap fst length seq]. f_equal.
  rewrite <- fmap_S_seq, <- list_fmap_compose.
  transitivity ((imap (fun i v => (pretty (S n + i), v)) l).*1).
  - f_equal. apply imap_ext. intros i v _. cbn. rewrite Nat.add_succ_r. reflexivity.
  - rewrite IH. apply list_fmap_ext. intros i j _. cbn. rewrite Nat.add_succ_r. reflexivity.
Qed.

Lemma indexed_keys_0 (l : list value) :
  (imap (fun i v => (pretty i, v)) l).*1 = pretty <$> seq 0 (length l).
Proof. exact (indexed_keys l 0). Qed.

Lemma indexed_NoDup (l : list value) :
  NoDup (imap (fun i v => (pretty i, v)) l).*1.
Proof.
  rewrite indexed_keys_0. apply NoDup_fmap_2; [|apply NoDup_seq].
  intros i j H. exact (inj pretty i j H).
Qed.

Lemma indexed_lookup (l : list value) (i : nat) : indexed l !! pretty i = l !! i.
Proof.
  unfold indexed. destruct (l !! i) as [v|] eqn:Hi.
  - apply elem_of_list_to_map; [apply indexed_NoDup|].
    apply list_elem_of_lookup. exists i. rewrite list_lookup_imap, Hi. reflexivity.
  - apply not_elem_of_list_to_map_1. rewrite indexed_keys_0.
    intros (j & Hj & Hin)%list_elem_of_fmap.
    apply (inj pretty) in Hj as <-.
    apply elem_of_seq in Hin. apply lookup_ge_None in Hi. lia.
Qed.

Lemma indexed_size (l : list value) : size (indexed l) = length l.
Proof.
  unfold indexed. rewrite map_size_list_to_map by apply indexed_NoDup.
  apply length_imap.
Qed.

Lemma indexed_updatedAt (l : list value) : indexed l !! "updatedAt" = None.
Proof.
  unfold indexed. apply not_elem_of_list_to_map_1. rewrite indexed_keys_0.
  intros (j & Hj & _)%list_elem_of_fmap. symmetry in Hj.
  exact (pretty_nat_not_updatedAt _ Hj).
Qed.

(** A payload that is not an object.  When the fetched payload is an
    array, a successful run stores its elements as fields named by their
    decimal indices, next to [updatedAt]: the document has one field more
    than the array has elements, and is not an array.  When the payload is
    [null], [undefined], a boolean or a number, the stored document holds
    [updatedAt] alone. *)
Theorem payload_that_is_not_an_object (env : nat -> Reply) (w : World) :
  run_succeeds env w ->
  let payload := body (env (length (calls w))) in
  let at_save := VStr (Date.toISOString (now w + took (env (length (calls w))))) in
  exists doc,
    market_doc (snd (run env updateMarketPrices w)) = Some doc
    /\ (forall l, payload = VArr l ->
        (forall i, doc !! pretty i = l !! i)
        /\ doc !! "updatedAt" = Some at_save
        /\ size doc = S (length l))
    /\ (payload = VNull \/ payload = VUndefined
        \/ (exists b, payload = VBool b) \/ (exists q, payload = VNum q) ->
        doc = {[ "updatedAt" := at_save ]}).
Proof.
  intros [H1 H2]. cbv zeta. rewrite updateMarketPrices_run, H1, H2. cbn [snd].
  unfold market_doc. cbn [firestore]. rewrite lookup_insert_eq.
  exists (saved_fields env w). split; [reflexivity|]. unfold saved_fields, saved_at. split.
  - intros l ->. cbn [spread]. split; [|split].
    + intros i. rewrite lookup_insert_ne by (symmetry; apply pretty_nat_not_updatedAt).
      apply indexed_lookup.
    + apply lookup_insert_eq.
    + rewrite map_size_insert_None by apply indexed_updatedAt.
      rewrite indexed_size. reflexivity.
  - intros [->|[->|[[b ->]|[q ->]]]]; reflexivity.
Qed.

Lemma payload_that_is_not_an_object_witness :
  exists doc,
    market_doc (snd (run (fun _ => ok 10 (VArr [VNum 32.5; VNum 18])) updateMarketPrices
                       (blank 0))) = Some doc
    /\ doc !! "1" = Some (VNum 18) /\ size doc = 3.
Proof.
  destruct (payload_that_is_not_an_object
              (fun _ => ok 10 (VArr [VNum 32.5; VNum 18])) (blank 0)
              (conj eq_refl eq_refl)) as (doc & Hdoc & Harr & _).
  destruct (Harr [VNum 32.5; VNum 18] eq_refl) as (Hi & _ & Hsize).
  exists doc. split; [exact Hdoc|]. split; [exact (Hi 1) | exact Hsize].
Defined.

(** ** What the console says *)

(** One line per run, and a truthful one.  Every run of the task writes
    exactly one line on the console.  It is the success line only when
    the fetch and the write both succeeded, and then the market document
    is the one this run wrote; otherwise it is the failure line, with the
    reason of the call that failed, and the store is as it was. *)
Theorem one_truthful_line_per_run (env : nat -> Reply) (w : World) :
  exists line,
    console (snd (run env updateMarketPrices w)) = console w ++ [line]
    /\ ((line = updated_line
         /\ run_succeeds env w
         /\ market_doc (snd (run env updateMarketPrices w)) = Some (saved_fields env w))
        \/ (exists e, line = failed_line e
                      /\ run_fails env w e
                      /\ firestore (snd (run env updateMarketPrices w)) = firestore w)).
Proof.
  rewrite updateMarketPrices_run. unfold run_succeeds, run_fails.
  destruct (fault (env (length (calls w)))) as [e|] eqn:H1;
    [|destruct (fault (env (S (length (calls w))))) as [e|] eqn:H2]; cbn [snd console firestore].
  - exists (failed_line e). split; [reflexivity|]. right. exists e. auto.
  - exists (failed_line e). split; [reflexivity|]. right. exists e. auto.
  - exists updated_line. split; [reflexivity|]. left.
    split; [reflexivity|]. split; [auto|]. apply lookup_insert_eq.
Qed.

(** ** Many runs *)

Lemma requests_app (w : World) (l : list Call) :
  length (List.filter is_request (calls w ++ l))
  = requests w + length (List.filter is_request l).
Proof. unfold requests. rewrite List.filter_app, length_app. reflexivity. Qed.

(** What one run adds to the counts. *)
Lemma run_counts env w :
  let w' := snd (run env updateMarketPrices w) in
  length (console w') = S (length (console w))
  /\ requests w' = S (requests w)
  /\ writes w <= writes w' <= S (writes w)
  /\ responses w' = responses w.
Proof.
  cbv zeta. rewrite updateMarketPrices_run.
  destruct (fault (env (length (calls w)))) as [e|];
    [|destruct (fault (env (S (length (calls w))))) as [e|]];
    cbn [snd console responses]; unfold requests at 1, writes at 2 3; cbn [calls];
    rewrite ?length_app, <- ?app_assoc, ?requests_app, ?writes_app; cbn; repeat split; lia.
Qed.

Lemma cycles_counts env : forall n w,
  length (console (cycles env n w)) = length (console w) + n
  /\ requests (cycles env n w) = requests w + n
  /\ writes w <= writes (cycles env n w) <= writes w + n
  /\ responses (cycles env n w) = responses w.
Proof.
  induction n as [|n IH]; intros w; cbn [cycles].
  - rewrite !Nat.add_0_r. repeat split; lia.
  - destruct (run_counts env w) as (Hc & Hr & Hw & Hs).
    destruct (IH (snd (run env updateMarketPrices w))) as (Hc' & Hr' & Hw' & Hs').
    rewrite Hc', Hr', Hs', Hc, Hr, Hs. repeat split; lia.
Qed.

(** The counts after [n] runs.  Whatever the fetches and the writes
    answer, [n] runs of the task write exactly [n] lines on the console
    and make exactly [n] HTTP requests and at most [n] writes; they never
    call [res.json]. *)
Theorem counts_after_runs (env : nat -> Reply) (n : nat) (w : World) :
  length (console (cycles env n w)) = length (console w) + n
  /\ requests (cycles env n w) = requests w + n
  /\ writes w <= writes (cycles env n w) <= writes w + n
  /\ responses (cycles env n w) = responses w.
Proof. apply cycles_counts. Qed.

(** Runs that all fail change neither the store nor the responses. *)
Lemma failing_cycles env : forall n w,
  (forall i, i < n -> exists e, run_fails env (cycles env i w) e) ->
  firestore (cycles env n w) = firestore w.
Proof.
  induction n as [|n IH]; intros w H; cbn [cycles]; [reflexivity|].
  rewrite IH.
  - destruct (H 0 ltac:(lia)) as [e He]. cbn [cycles] in He.
    rewrite updateMarketPrices_run.
    destruct He as [H1|[H1 H2]]; rewrite H1, ?H2; reflexivity.
  - intros i Hi. exact (H (S i) ltac:(lia)).
Qed.

(** Any number of failures.  If every one of [n] successive runs fails,
    at the fetch or at the write, the store after them is exactly the
    store before them, they have written [n] lines on the console, and a
    read that then succeeds returns the market document as it was before
    the first of them. *)
Theorem failures_keep_the_last_document (env : nat -> Reply) (n : nat) (w : World) :
  (forall i, i < n -> exists e, run_fails env (cycles env i w) e) ->
  firestore (cycles env n w) = firestore w
  /\ length (console (cycles env n w)) = length (console w) + n
  /\ (forall env', fault (env' (length (calls (cycles env n w)))) = None ->
      fst (run env' getCachedPrices (cycles env n w))
      = Normal (snapshot_data (market_doc w))).
Proof.
  intros H. pose proof (failing_cycles env n w H) as Hf.
  split; [exact Hf|]. split; [apply cycles_counts|].
  intros env' H'. rewrite getCachedPrices_run, H'. cbn [fst].
  unfold market_doc. rewrite Hf. reflexivity.
Qed.

Lemma failures_keep_the_last_document_witness :
  firestore (cycles (fun _ => fails 10 (VStr "Network Error")) 3 stale_world)
  = firestore stale_world.
Proof.
  apply (failures_keep_the_last_document
           (fun _ => fails 10 (VStr "Network Error")) 3 stale_world).
  intros i _. exists (VStr "Network Error"). left. reflexivity.
Defined.

(** The last success is what is served.  If the run numbered [i]
    succeeds and every later run up to the [n]-th fails, the market
    document after the [n] runs is the one run [i] wrote, and a
    [GET /api/market] whose read succeeds then answers with it, however
    many failures came after. *)
Theorem last_success_is_served (env : nat -> Reply) (w : World) (i n : nat) :
  i < n ->
  run_succeeds env (cycles env i w) ->
  (forall j, i < j < n -> exists e, run_fails env (cycles env j w) e) ->
  market_doc (cycles env n w) = Some (saved_fields env (cycles env i w))
  /\ (forall env', fault (env' (length (calls (cycles env n w)))) = None ->
      responses (snd (run env' market_handler (cycles env n w)))
      = responses w ++ [VObj (saved_fields env (cycles env i w))]).
Proof.
  intros Hin [H1 H2] Hfail.
  assert (Hn : cycles env n w = cycles env (n - S i) (cycles env (S i) w))
    by (rewrite <- cycles_add; f_equal; lia).
  assert (Hi : cycles env (S i) w = snd (run env updateMarketPrices (cycles env i w)))
    by (replace (S i) with (i + 1) by lia; rewrite cycles_add; reflexivity).
  assert (Hdoc : market_doc (cycles env n w) = Some (saved_fields env (cycles env i w))).
  { unfold market_doc. rewrite Hn, failing_cycles.
    - rewrite Hi, updateMarketPrices_run, H1, H2. cbn [snd firestore].
      apply lookup_insert_eq.
    - intros j Hj. rewrite <- cycles_add.
      replace (S i + j) with (S (i + j)) by lia. apply Hfail. lia. }
  split; [exact Hdoc|].
  intros env' H'. rewrite market_handler_run, H'. cbn [snd set_responses after_read responses].
  rewrite Hdoc. cbn [snapshot_data]. f_equal. apply cycles_counts.
Qed.

Lemma last_success_is_served_witness :
  let env := fun i : nat => match i with
                            | 4 => fails 10 (VStr "Network Error")
                            | _ => ok 10 rice
                            end in
  market_doc (cycles env 3 (blank 0))
  = Some (saved_fields env (cycles env 1 (blank 0))).
Proof.
  intros env. apply (last_success_is_served env (blank 0) 1 3).
  - lia.
  - split; reflexivity.
  - intros j Hj. assert (j = 2) as -> by lia.
    exists (VStr "Network Error"). left. reflexivity.
Defined.

(** ** Disciplines kept on the event loop *)

(** A discipline of programs ([okS], [okA], [poss]) and a condition [W]
    on the world that the calls of the discipline maintain: the loop
    keeps [W] through every sequence of allowed events. *)
Section Discipline.
  Variable okS : forall X, SyncOp X -> Prop.
  Variable okA : forall X, AsyncOp X -> Prop.
  Variable poss : forall X, AsyncOp X -> Settled X -> Prop.
  Variable W : World -> Prop.
  Variable allowed : Event -> Prop.

  Hypothesis W_sync : forall X (op : SyncOp X) w,
    okS X op -> W w -> W (snd (do_sync op w)).
  Hypothesis W_start : forall X (op : AsyncOp X) w,
    okA X op -> W w -> W (start op w).
  Hypothesis W_settle : forall X (op : AsyncOp X) r w,
    okA X op -> W w ->
    W (snd (settle op r w)) /\ poss X op (fst (settle op r w)).
  Hypothesis tick_obeys : allowed Tick -> obeys okS okA poss updateMarketPrices.
  Hypothesis get_obeys : allowed GetMarket -> obeys okS okA poss market_handler.

Lemma advance_obeys (p : Prog value) :
  obeys okS okA poss p -> forall w, W w ->
  W (snd (advance p w))
  /\ match fst (advance p w) with
     | inl _ => True
     | inr t => task_obeys okS okA poss t
     end.
Proof using W_sync W_start.
  induction 1 as [a|e|X op k Hop _ IH|X op k Hop Hk _]; intros w Hw; cbn [advance].
  - split; [exact Hw | exact I].
  - split; [exact Hw | exact I].
  - pose proof (W_sync X op w Hop Hw) as Hw'.
    destruct (do_sync op w) as [x w1]. apply IH. exact Hw'.
  - cbn [fst snd]. split; [apply W_start; assumption|]. split; assumption.
Qed.

Lemma invoke_obeys (p : Prog value) (s : Loop) :
  obeys okS okA poss p ->
  W (world s) -> Forall (task_obeys okS okA poss) (in_flight s) ->
  W (world (invoke p s)) /\ Forall (task_obeys okS okA poss) (in_flight (invoke p s)).
Proof using W_sync W_start.
  intros Hp Hw Hf. unfold invoke.
  pose proof (advance_obeys p Hp (world s) Hw) as [Hw' Ht].
  destruct (advance p (world s)) as [[c|t] w1]; cbn [fst snd] in *; cbn [world in_flight].
  - split; assumption.
  - split; [assumption|]. apply Forall_app. split; [assumption|]. constructor; [assumption|constructor].
Qed.

Lemma resume_obeys (i : nat) (r : Reply) (s : Loop) :
  W (world s) -> Forall (task_obeys okS okA poss) (in_flight s) ->
  W (world (resume i r s)) /\ Forall (task_obeys okS okA poss) (in_flight (resume i r s)).
Proof using W_sync W_start W_settle.
  intros Hw Hf. unfold resume.
  destruct (in_flight s !! i) as [[X op k]|] eqn:Hi; [|split; assumption].
  pose proof (Forall_lookup_1 _ _ _ _ Hf Hi) as [Hop Hk].
  pose proof (W_settle X op r (world s) Hop Hw) as [Hw1 Hposs].
  destruct (settle op r (world s)) as [x w1]. cbn [fst snd] in *.
  pose proof (advance_obeys (k x) (Hk x Hposs) w1 Hw1) as [Hw2 Ht].
  destruct (advance (k x) w1) as [[c|t] w2]; cbn [fst snd] in *; cbn [world in_flight].
  - split; [assumption|]. apply Forall_delete. assumption.
  - split; [assumption|]. apply Forall_insert; assumption.
Qed.

Lemma steps_obey (evs : list Event) :
  Forall allowed evs -> forall s,
  W (world s) -> Forall (task_obeys okS okA poss) (in_flight s) ->
  W (world (steps s evs)).
Proof using W_sync W_start W_settle tick_obeys get_obeys.
  induction 1 as [|ev evs Hev _ IH]; intros s Hw Hf; [exact Hw|].
  cbn [steps fold_left]. destruct ev; cbn [step].
  - destruct (invoke_obeys updateMarketPrices s (tick_obeys Hev) Hw Hf). apply IH; assumption.
  - destruct (invoke_obeys market_handler s (get_obeys Hev) Hw Hf). apply IH; assumption.
  - destruct (resume_obeys i r s Hw Hf). apply IH; assumption.
Qed.
End Discipline.

(** *** No torn document *)






(** *** The read path *)

Lemma kept_stored_sync w0 X (op : SyncOp X) w :
  serves_stored w0 X op -> kept_stored w0 w -> kept_stored w0 (snd (do_sync op w)).
Proof.
  intros Hop (Hf & Hc & Hr & Hw & n & Hn). unfold kept_stored.
  destruct op as [|args|args|b]; cbn [do_sync snd].
  - repeat (split; [assumption|]). exists n. exact Hn.
  - destruct Hop.
  - destruct Hop.
  - cbn [serves_stored] in Hop. repeat (split; [assumption|]). exists (S n).
    cbn [set_responses responses]. rewrite Hn, Hop, replicate_S_end, app_assoc. reflexivity.
Qed.

Lemma kept_stored_start w0 X (op : AsyncOp X) w :
  reads_only X op -> kept_stored w0 w -> kept_stored w0 (start op w).
Proof.
  intros Hop (Hf & Hc & Hr & Hw & Hn). unfold kept_stored.
  destruct op as [url|c d f|c d]; [destruct Hop|destruct Hop|].
  repeat (split; [assumption|]).
  unfold requests at 1, writes at 1. cbn [start set_calls calls].
  rewrite requests_app, writes_app. cbn. rewrite !Nat.add_0_r.
  repeat (split; [assumption|]). exact Hn.
Qed.

Lemma kept_stored_settle w0 X (op : AsyncOp X) r w :
  reads_only X op -> kept_stored w0 w ->
  kept_stored w0 (snd (settle op r w)) /\ reads_stored w0 X op (fst (settle op r w)).
Proof.
  intros Hop (Hf & Hc & Hr & Hw & Hn).
  destruct op as [url|c d f|c d]; [destruct Hop|destruct Hop|].
  cbn [reads_only] in Hop. injection Hop as -> ->.
  unfold settle. destruct (fault r) as [e|]; cbn [fst snd].
  - split; [|exact I]. repeat (split; [assumption|]). exact Hn.
  - split; [repeat (split; [assumption|]); exact Hn|].
    cbn [reads_stored set_now firestore]. unfold market_doc. rewrite Hf. reflexivity.
Qed.

Lemma market_handler_serves_stored w0 :
  obeys (serves_stored w0) reads_only (reads_stored w0) market_handler.
Proof.
  unfold market_handler, getCachedPrices, await, res_json. cbn [bind].
  apply ob_await; [reflexivity|]. intros [o|e] Ho; cbn [bind]; [|constructor].
  cbn [reads_stored] in Ho. subst o.
  apply ob_sync; [reflexivity|]. intros []. constructor.
Qed.

(** The read path only reads.  Through every sequence of
    [GET /api/market] requests and settling promises, whatever the order
    and whether the reads succeed or fail, the store and the console stay
    exactly as they were, no HTTP request and no write is made, and every
    body given to [res.json] is [doc.data()] of the market document as
    stored: its fields, or [undefined] when there is none. *)
Theorem read_path_only_reads (w0 : World) (evs : list Event) :
  Forall read_event evs ->
  let w := world (steps (idle w0) evs) in
  firestore w = firestore w0
  /\ console w = console w0
  /\ requests w = requests w0
  /\ writes w = writes w0
  /\ exists n, responses w = responses w0 ++ replicate n (snapshot_data (market_doc w0)).
Proof.
  intros Hevs. cbv zeta.
  apply (steps_obey (serves_stored w0) reads_only (reads_stored w0)
           (kept_stored w0) read_event).
  - apply kept_stored_sync.
  - apply kept_stored_start.
  - apply kept_stored_settle.
  - intros [].
  - intros _. apply market_handler_serves_stored.
  - exact Hevs.
  - repeat (split; [reflexivity|]). exists 0. cbn. rewrite app_nil_r. reflexivity.
  - constructor.
Qed.

(** Two requests in flight together, the first read failing. *)
Lemma read_path_only_reads_witness :
  firestore (world (steps (idle stale_world)
                      [GetMarket; GetMarket; Settles 0 (fails 5 (VStr "UNAVAILABLE"));
                       Settles 0 (ok 5 VUndefined)]))
  = firestore stale_world.
Proof.
  apply (read_path_only_reads stale_world
           [GetMarket; GetMarket; Settles 0 (fails 5 (VStr "UNAVAILABLE"));
            Settles 0 (ok 5 VUndefined)]).
  repeat constructor.
Defined.

(** ** The order of the stamps *)

Lemma time_of_day_lt t1 t2 :
  Date.Day t1 = Date.Day t2 -> (t1 < t2)%Z ->
  Date.lex (Date.HourFromTime t1 ?= Date.HourFromTime t2)%Z
    (Date.lex (Date.MinFromTime t1 ?= Date.MinFromTime t2)%Z
       (Date.lex (Date.SecFromTime t1 ?= Date.SecFromTime t2)%Z
          (Date.msFromTime t1 ?= Date.msFromTime t2)%Z)) = Lt.
Proof.
  unfold Date.Day, Date.msPerDay, Date.HourFromTime, Date.MinFromTime,
    Date.SecFromTime, Date.msFromTime.
  intros Hd Hlt.
  destruct (Z.compare_spec ((t1 / 3600000) mod 24) ((t2 / 3600000) mod 24));
    cbn [Date.lex]; [|reflexivity|exfalso; zdiv].
  destruct (Z.compare_spec ((t1 / 60000) mod 60) ((t2 / 60000) mod 60));
    cbn [Date.lex]; [|reflexivity|exfalso; zdiv].
  destruct (Z.compare_spec ((t1 / 1000) mod 60) ((t2 / 1000) mod 60));
    cbn [Date.lex]; [|reflexivity|exfalso; zdiv].
  destruct (Z.compare_spec (t1 mod 1000) (t2 mod 1000));
    [exfalso; zdiv|reflexivity|exfalso; zdiv].
Qed.

Lemma toISOString_lt t1 t2 :
  Date.four_digit_year t1 -> Date.four_digit_year t2 -> (t1 < t2)%Z ->
  String.compare (Date.toISOString t1) (Date.toISOString t2) = Lt.
Proof.
  intros R1 R2 Hlt. rewrite DateFacts.toISOString_compare by assumption.
  assert (Hd : (Date.Day t1 <= Date.Day t2)%Z) by (unfold Date.Day, Date.msPerDay; zdiv).
  apply Z.le_lteq in Hd as [Hd|Hd].
  - assert (HY : (Date.YearFromTime t1 <= Date.YearFromTime t2)%Z)
      by (apply DateFacts.YearFromDay_mono; lia).
    apply Z.le_lteq in HY as [HY|HY].
    + apply Z.compare_lt_iff in HY. rewrite HY. reflexivity.
    + destruct (DateFacts.month_date_lt t1 t2 HY Hd) as [HM|[HM HD]].
      * rewrite HY, Z.compare_refl. apply Z.compare_lt_iff in HM. rewrite HM. reflexivity.
      * rewrite HY, HM, !Z.compare_refl. apply Z.compare_lt_iff in HD. rewrite HD.
        reflexivity.
  - destruct (DateFacts.date_of_day t1 t2 Hd) as (HY & HM & HD).
    rewrite HY, HM, HD, !Z.compare_refl. cbn [Date.lex].
    apply time_of_day_lt; assumption.
Qed.

Lemma string_compare_refl s : String.compare s s = Eq.
Proof.
  pose proof (String.compare_antisym s s) as H.
  destruct (String.compare s s); try reflexivity; discriminate H.
Qed.

(** The stamps order as the clock.  Two calls of [savePricesToDB] whose
    writes succeed, made at clock readings within the four-digit years,
    store stamps that compare, as strings, exactly as the two readings
    do: the earlier call has the smaller stamp, and the stamps are equal
    only when the readings are, to the millisecond. *)
Theorem stamps_order_as_the_clock (env1 env2 : nat -> Reply) (w1 w2 : World) (d1 d2 : value) :
  Date.four_digit_year (now w1) -> Date.four_digit_year (now w2) ->
  fault (env1 (length (calls w1))) = None ->
  fault (env2 (length (calls w2))) = None ->
  exists s1 s2,
    stamp (snd (run env1 (savePricesToDB d1) w1)) = Some s1
    /\ stamp (snd (run env2 (savePricesToDB d2) w2)) = Some s2
    /\ (String.ltb s1 s2 = true <-> (now w1 < now w2)%Z)
    /\ (s1 = s2 <-> now w1 = now w2).
Proof.
  intros R1 R2 H1 H2. rewrite !savePricesToDB_run. cbv zeta. rewrite H1, H2. cbn [snd].
  exists (Date.toISOString (now w1)), (Date.toISOString (now w2)).
  unfold stamp, market_doc. cbn [set_firestore firestore].
  rewrite !lookup_insert_eq. split; [reflexivity|]. split; [reflexivity|].
  unfold String.ltb.
  destruct (Z.lt_trichotomy (now w1) (now w2)) as [Hlt|[Heq|Hgt]].
  - rewrite (toISOString_lt _ _ R1 R2 Hlt). split; [split; auto|].
    split; [|lia]. intros Hs. pose proof (toISOString_lt _ _ R1 R2 Hlt) as Hc.
    rewrite Hs, string_compare_refl in Hc. discriminate Hc.
  - rewrite Heq, string_compare_refl. split; [split; [discriminate|lia]|].
    split; auto.
  - pose proof (toISOString_lt _ _ R2 R1 Hgt) as Hc.
    rewrite String.compare_antisym, Hc. cbn [CompOpp].
    split; [split; [discriminate|lia]|].
    split; [|lia]. intros Hs. rewrite Hs, string_compare_refl in Hc. discriminate Hc.
Qed.

Lemma stamps_order_as_the_clock_witness :
  exists s1 s2,
    stamp (snd (run (fun _ => ok 5 VUndefined) (savePricesToDB rice) (blank 0))) = Some s1
    /\ stamp (snd (run (fun _ => ok 5 VUndefined) (savePricesToDB rice) stale_world))
       = Some s2
    /\ String.ltb s1 s2 = true.
Proof.
  destruct (stamps_order_as_the_clock (fun _ => ok 5 VUndefined) (fun _ => ok 5 VUndefined)
              (blank 0) stale_world rice rice) as (s1 & s2 & E1 & E2 & Hlt & _).
  - unfold Date.four_digit_year. simpl. lia.
  - unfold Date.four_digit_year. simpl. lia.
  - reflexivity.
  - reflexivity.
  - exists s1, s2. split; [exact E1|]. split; [exact E2|]. apply Hlt. simpl. lia.
Defined.
